(** * cover.py: splitting a scanned book cover into print-ready panels

    A shallow embedding of [cover.py] and the properties of its geometric
    pipeline: [split_book_cover], [add_stretched_border],
    [concatenate_images_horizontally], [add_bleed_box] and [main].

    The script is written against Pillow ([PIL.Image]) and pikepdf.  The
    first part of this file models the Pillow operations the script calls
    ([crop], [resize], [paste], [getpixel], [Image.new]); the functions of
    [cover.py] follow, line by line, in an error monad. *)

From Stdlib Require Import ZArith QArith Qround Lia List Bool.
From stdpp Require Import gmap strings list fin_maps.

Local Open Scope string_scope.
Local Open Scope Z_scope.
Local Open Scope list_scope.

(** ** Python exceptions and the error monad *)

Inductive exn : Type :=
| ValueError (msg : string)
| IndexError (msg : string)
| AssertionError
| DecimalException
| OSError (msg : string).

Inductive result (A : Type) : Type :=
| Ok (a : A)
| Raise (e : exn).

Arguments Ok {A} a.
Arguments Raise {A} e.

Definition bind {A B : Type} (c : result A) (k : A -> result B) : result B :=
  match c with
  | Ok a => k a
  | Raise e => Raise e
  end.

Notation "x <- c ;; k" := (bind c (fun x => k))
  (at level 100, c at next level, right associativity).

(** ** Raster images, as Pillow presents them

    An image has a mode, a size and a pixel buffer.  Three of Pillow's
    modes are modelled: 8-bit greyscale, RGB and RGBA.  A pixel is the list
    of its band values, in the order [getpixel] reports them. *)

Inductive Mode : Type := L | RGB | RGBA.

Definition Mode_eqb (a b : Mode) : bool :=
  match a, b with
  | L, L | RGB, RGB | RGBA, RGBA => true
  | _, _ => false
  end.

Definition pixel : Type := list Z.

Record Image : Type := mkImage {
  mode : Mode;
  width : Z;
  height : Z;
  px : Z -> Z -> pixel
}.

(** Pillow never builds an image of negative size. *)
Definition wf (im : Image) : Prop := 0 <= width im /\ 0 <= height im.



(** [Image.__eq__] compares mode, size and the pixel data. *)
Definition same_image (a b : Image) : Prop :=
  mode a = mode b /\ width a = width b /\ height a = height b /\
  forall x y, 0 <= x < width a -> 0 <= y < height a -> px a x y = px b x y.

Definition inside (im : Image) (x y : Z) : bool :=
  (0 <=? x) && (x <? width im) && (0 <=? y) && (y <? height im).

(** The all-zero pixel of a mode: what [Image.new] fills with, and what
    [crop] pads with beyond the source. *)
Definition zero_pixel (m : Mode) : pixel :=
  match m with
  | L => [0]
  | RGB => [0; 0; 0]
  | RGBA => [0; 0; 0; 0]
  end.

Definition box : Type := (Z * Z * Z * Z)%type.

(** [Image.new(mode, size)]: a black image; negative sizes are refused. *)
Definition Image_new (m : Mode) (w h : Z) : result Image :=
  if (w <? 0) || (h <? 0) then Raise (ValueError "Width and height must be >= 0")
  else Ok (mkImage m w h (fun _ _ => zero_pixel m)).

(** [Image.crop(box)] with [box = (x0, y0, x1, y1)], Pillow's
    (left, upper, right, lower).  Pillow refuses a box whose right edge is
    left of its left edge (or whose lower edge is above its upper edge); a
    box that reaches beyond the image is accepted, and the part outside the
    source is zero-filled. *)
Definition crop (im : Image) (b : box) : result Image :=
  let '(x0, y0, x1, y1) := b in
  if x1 <? x0 then Raise (ValueError "Coordinate 'right' is less than 'left'")
  else if y1 <? y0 then Raise (ValueError "Coordinate 'lower' is less than 'upper'")
  else Ok (mkImage (mode im) (x1 - x0) (y1 - y0)
             (fun x y => if inside im (x + x0) (y + y0)
                         then px im (x + x0) (y + y0)
                         else zero_pixel (mode im))).

(** [Image.getpixel((x, y))]: negative coordinates count from the far edge,
    anything still outside raises. *)
Definition getpixel (im : Image) (x y : Z) : result pixel :=
  let x := if x <? 0 then width im + x else x in
  let y := if y <? 0 then height im + y else y in
  if inside im x y then Ok (px im x y)
  else Raise (IndexError "image index out of range").

(** Mode conversion of one pixel ([Image.convert]); greyscale from colour
    is Pillow's fixed-point ITU-R 601-2 luma. *)
Definition luma (r g b : Z) : Z :=
  Z.shiftr (r * 19595 + g * 38470 + b * 7471 + 32768) 16.

Definition convert (src dst : Mode) (p : pixel) : pixel :=
  match src, dst, p with
  | L, RGB, [v] => [v; v; v]
  | L, RGBA, [v] => [v; v; v; 255]
  | RGB, L, [r; g; b] => [luma r g b]
  | RGB, RGBA, [r; g; b] => [r; g; b; 255]
  | RGBA, L, [r; g; b; _] => [luma r g b]
  | RGBA, RGB, [r; g; b; _] => [r; g; b]
  | _, _, _ => p
  end.

(** The pixel of [im] at [(x, y)] as an image of mode [dst] receives it:
    no conversion between equal modes. *)
Definition pixel_as (dst : Mode) (im : Image) (x y : Z) : pixel :=
  if Mode_eqb (mode im) dst then px im x y
  else convert (mode im) dst (px im x y).

(** [self.paste(im, (x, y))]: [im] overwrites the region of its own size
    whose upper left corner is [(x, y)]; a source of another mode is
    brought to the destination's mode first (for an RGBA source on an RGB
    destination the colour bands are copied and alpha is dropped).  The
    region is clipped to the destination.  The script only pastes into
    images it has just created, so the in-place update is a new value. *)
Definition paste (self im : Image) (x y : Z) : Image :=
  mkImage (mode self) (width self) (height self)
    (fun i j =>
       if inside im (i - x) (j - y)
       then pixel_as (mode self) im (i - x) (j - y)
       else px self i j).

(** The ink Pillow derives from a colour value for an image of mode
    [m]: a tuple gives its bands (a fourth band is ignored by RGB), a bare
    integer, which is what [getpixel] returns for a greyscale image, is
    unpacked as 0xAABBGGRR for a multi-band image. *)
Definition ink (m : Mode) (color : pixel) : pixel :=
  match m, color with
  | RGB, [v] => [Z.land v 255; Z.land (Z.shiftr v 8) 255; Z.land (Z.shiftr v 16) 255]
  | RGB, [r; g; b; _] => [r; g; b]
  | RGBA, [v] => [Z.land v 255; Z.land (Z.shiftr v 8) 255;
                  Z.land (Z.shiftr v 16) 255; Z.land (Z.shiftr v 24) 255]
  | RGBA, [r; g; b] => [r; g; b; 255]
  | _, _ => color
  end.

(** [self.paste(color, (x0, y0, x1, y1))]: a flat fill of the box. *)
Definition paste_color (self : Image) (color : pixel) (b : box) : Image :=
  let '(x0, y0, x1, y1) := b in
  mkImage (mode self) (width self) (height self)
    (fun i j =>
       if (x0 <=? i) && (i <? x1) && (y0 <=? j) && (j <? y1)
       then ink (mode self) color
       else px self i j).

(** ** [split_book_cover] *)

Definition split_book_cover (image : Image) (back_width front_width : Z)
  : result (Image * Image * Image) :=
  let original_width := width image in
  let original_height := height image in
  let spine_width := original_width - back_width - front_width in
  let front_offset := original_width - front_width in
  let back_crop_area := (0, 0, back_width, original_height) in
  back_img <- crop image back_crop_area ;;
  let spine_crop_area := (back_width, 0, back_width + spine_width, original_height) in
  spine_img <- crop image spine_crop_area ;;
  let front_crop_area := (front_offset, 0, original_width, original_height) in
  front_img <- crop image front_crop_area ;;
  Ok (back_img, spine_img, front_img).



(** ** [Image.resize]

    The resampling filter (bicubic by default) is floating-point code of
    Pillow; the pixel it computes at a position of the resized image is the
    parameter [resample im w h x y].  What [resize] decides around it is
    modelled: a request for the image's own size returns a copy, and a
    target size with a dimension below 1 is refused. *)

Definition resampler : Type := Image -> Z -> Z -> Z -> Z -> pixel.

Definition resize (resample : resampler) (im : Image) (w h : Z) : result Image :=
  if (w =? width im) && (h =? height im) then Ok im
  else if (w <? 1) || (h <? 1) then Raise (ValueError "height and width must be > 0")
  else Ok (mkImage (mode im) w h (resample im w h)).

(** ** [add_stretched_border] *)

Definition add_stretched_border (resample : resampler)
    (image : Image) (border_size_px stretch_pixel_width : Z) : result Image :=
  let width := width image in
  let height := height image in
  let stretch_pixel_width := Z.min (Z.min stretch_pixel_width width) height in
  left_strip <- crop image (0, 0, stretch_pixel_width, height) ;;
  left_border <- resize resample left_strip border_size_px height ;;
  right_strip <- crop image (width - stretch_pixel_width, 0, width, height) ;;
  right_border <- resize resample right_strip border_size_px height ;;
  top_strip <- crop image (0, 0, width, stretch_pixel_width) ;;
  top_border <- resize resample top_strip width border_size_px ;;
  bottom_strip <- crop image (0, height - stretch_pixel_width, width, height) ;;
  bottom_border <- resize resample bottom_strip width border_size_px ;;
  let new_width := width + 2 * border_size_px in
  let new_height := height + 2 * border_size_px in
  new_image <- Image_new RGB new_width new_height ;;
  let new_image := paste new_image image border_size_px border_size_px in
  let new_image := paste new_image left_border 0 border_size_px in
  let new_image := paste new_image right_border (new_width - border_size_px) border_size_px in
  let new_image := paste new_image top_border border_size_px 0 in
  let new_image := paste new_image bottom_border border_size_px (new_height - border_size_px) in
  top_left <- getpixel image 0 0 ;;
  let new_image := paste_color new_image top_left (0, 0, border_size_px, border_size_px) in
  top_right <- getpixel image (width - 1) 0 ;;
  let new_image :=
    paste_color new_image top_right
      (new_width - border_size_px, 0, new_width, border_size_px) in
  bottom_left <- getpixel image 0 (height - 1) ;;
  let new_image :=
    paste_color new_image bottom_left
      (0, new_height - border_size_px, border_size_px, new_height) in
  bottom_right <- getpixel image (width - 1) (height - 1) ;;
  let new_image :=
    paste_color new_image bottom_right
      (new_width - border_size_px, new_height - border_size_px, new_width, new_height) in
  Ok new_image.

(** ** [concatenate_images_horizontally] *)

(** [len(set(heights))]: the number of distinct heights. *)
Definition distinct_count (heights : list Z) : Z :=
  Z.of_nat (length (nodup Z.eq_dec heights)).

(** Python's [sum] over the widths. *)
Definition sum_widths (images : list Image) : Z :=
  fold_left Z.add (map width images) 0.

Definition HeightMismatch : exn :=
  ValueError "All images must have the same height to concatenate horizontally".

(** Two of the images differ in height. *)
Definition height_mismatch (images : list Image) : Prop :=
  exists a b, In a images /\ In b images /\ height a <> height b.

(** The paste loop: the state is the canvas and [current_width]. *)
Definition paste_step (st : Image * Z) (img : Image) : Image * Z :=
  let '(concatenated_image, current_width) := st in
  (paste concatenated_image img current_width 0, current_width + width img).

Definition concatenate_images_horizontally (images : list Image) : result Image :=
  let heights := map height images in
  if 1 <? distinct_count heights then Raise HeightMismatch
  else
    let total_width := sum_widths images in
    first <- match images with
             | [] => Raise (IndexError "list index out of range")
             | img :: _ => Ok img
             end ;;
    let height := height first in
    concatenated_image <- Image_new RGB total_width height ;;
    Ok (fst (fold_left paste_step images (concatenated_image, 0))).

(** ** The rendered PDF and [add_bleed_box]

    pikepdf hands the numbers of a page to Python as [Decimal] (or [int])
    values.  Their arithmetic is kept abstract: an interface with the
    operations [add_bleed_box] uses.  Division is partial, it raises on a
    zero divisor. *)

Class Decimal (D : Type) : Type := {
  dec_of_Z : Z -> D;
  dec_add : D -> D -> D;
  dec_sub : D -> D -> D;
  dec_mul : D -> D -> D;
  dec_div : D -> D -> option D;
  dec_eqb : D -> D -> bool
}.

(** Exact rational arithmetic, kept in lowest terms.  Python's [Decimal]
    computes the same values whenever 28 significant digits hold them. *)
#[export] Instance Q_Decimal : Decimal Q := {|
  dec_of_Z := inject_Z;
  dec_add a b := Qred (a + b);
  dec_sub a b := Qred (a - b);
  dec_mul a b := Qred (a * b);
  dec_div a b := if Qeq_bool b 0 then None else Some (Qred (a / b));
  dec_eqb := Qeq_bool
|}.

Record Page (D : Type) : Type := mkPage {
  MediaBox : list D;
  bleedbox : option (list D)
}.

Arguments mkPage {D} _ _.
Arguments MediaBox {D} _.
Arguments bleedbox {D} _.

(** [page.bleedbox = rect] *)
Definition set_bleedbox {D} (page : Page D) (rect : list D) : Page D :=
  mkPage (MediaBox page) (Some rect).

Definition Pdf (D : Type) : Type := list (Page D).

(** [input_image.save(path, "PDF", resolution=dpi)] followed by
    [pikepdf.open(path)]: the document Pillow's PDF writer renders, as
    pikepdf reads it back.  The writer is outside the repository. *)
Definition renderer (D : Type) : Type := Image -> Z -> result (list (Page D)).

Definition assert (b : bool) : result unit :=
  if b then Ok tt else Raise AssertionError.

(** Python indexing, [l[i]]. *)
Definition index {A : Type} (l : list A) (i : nat) : result A :=
  match l !! i with
  | Some a => Ok a
  | None => Raise (IndexError "index out of range")
  end.

Definition divide {D} `{Decimal D} (a b : D) : result D :=
  match dec_div a b with
  | Some q => Ok q
  | None => Raise DecimalException
  end.

Section BleedBox.
Context {D : Type} `{Decimal D}.

(** Everything [add_bleed_box] does inside [with pikepdf.open(...)] up
    to, and without, [pdf.save]: the document that is about to be saved. *)
Definition bleed_document (pdf : list (Page D))
    (full_width_px full_height_px : Z)
    (left_offset_px bottom_offset_px right_offset_px top_offset_px : Z)
  : result (list (Page D)) :=
  _ <- assert (Nat.eqb (length pdf) 1) ;;
  page <- index pdf 0 ;;
  let media_box := MediaBox page in
  m2 <- index media_box 2 ;;
  m0 <- index media_box 0 ;;
  let media_box_width := dec_sub m2 m0 in
  m3 <- index media_box 3 ;;
  m1 <- index media_box 1 ;;
  let media_box_height := dec_sub m3 m1 in
  unit_per_px <- divide media_box_width (dec_of_Z full_width_px) ;;
  per_px_height <- divide media_box_height (dec_of_Z full_height_px) ;;
  _ <- assert (dec_eqb unit_per_px per_px_height) ;;
  let bleed_box :=
    [ dec_add m0 (dec_mul (dec_of_Z left_offset_px) unit_per_px);
      dec_add m1 (dec_mul (dec_of_Z top_offset_px) unit_per_px);
      dec_sub m2 (dec_mul (dec_of_Z right_offset_px) unit_per_px);
      dec_sub m3 (dec_mul (dec_of_Z bottom_offset_px) unit_per_px) ] in
  Ok (<[0%nat := set_bleedbox page bleed_box]> pdf).

(** The file system is a map from paths to documents.  The temporary
    file has a fresh name and is removed when the [with] block is left,
    on every path, so it never shows in the map. *)
Definition add_bleed_box (save_pdf : renderer D) (fs : gmap string (list (Page D)))
    (input_image : Image) (dpi : Z) (output_pdf_path : string)
    (full_width_px full_height_px : Z)
    (left_offset_px bottom_offset_px right_offset_px top_offset_px : Z)
  : gmap string (list (Page D)) * result unit :=
  match
    pdf <- save_pdf input_image dpi ;;
    bleed_document pdf full_width_px full_height_px
      left_offset_px bottom_offset_px right_offset_px top_offset_px
  with
  | Ok pdf => (<[output_pdf_path := pdf]> fs, Ok tt)
  | Raise e => (fs, Raise e)
  end.
End BleedBox.

(** ** [main]

    The inch measures are Python floats.  8.5, 11 / 2.0 = 5.5 and 0.125 are
    exact binary fractions and their products with 300 are exact; 0.65 is
    not, but the nearest double to its product with 300 is 195.0.  So the
    four pixel sizes are those of exact rational arithmetic. *)

(** Python's [int] on a float: truncation towards zero. *)
Definition int (q : Q) : Z := Z.quot (Qnum q) (Z.pos (Qden q)).

Definition dpi : Z := 300.
Definition target_height_in : Q := 8.5.
Definition target_width_in : Q := 11 / 2.0.
Definition target_spine_width : Q := 0.65.

Definition target_cover_width_px : Z := int (target_width_in * inject_Z dpi).
Definition target_height_px : Z := int (target_height_in * inject_Z dpi).
Definition target_spine_width_px : Z := int (target_spine_width * inject_Z dpi).

Definition bleed_size_in : Q := 0.125.
Definition bleed_size_px : Z := int (bleed_size_in * inject_Z dpi).

(** One call of [add_bleed_box], as [main] makes it. *)
Record bleed_call : Type := mkCall {
  call_path : string;
  call_full_width_px : Z;
  call_full_height_px : Z;
  call_left_offset_px : Z;
  call_bottom_offset_px : Z;
  call_right_offset_px : Z;
  call_top_offset_px : Z
}.

(** The arguments of the three calls in [main]. *)
Definition back_call : bleed_call :=
  {| call_path := "back.pdf";
     call_full_width_px := target_cover_width_px + bleed_size_px;
     call_full_height_px := target_height_px + 2 * bleed_size_px;
     call_left_offset_px := bleed_size_px;
     call_bottom_offset_px := bleed_size_px;
     call_right_offset_px := 0;
     call_top_offset_px := bleed_size_px |}.

Definition spine_call : bleed_call :=
  {| call_path := "spine.pdf";
     call_full_width_px := target_spine_width_px;
     call_full_height_px := target_height_px + 2 * bleed_size_px;
     call_left_offset_px := 0;
     call_bottom_offset_px := bleed_size_px;
     call_right_offset_px := 0;
     call_top_offset_px := bleed_size_px |}.

Definition front_call : bleed_call :=
  {| call_path := "front.pdf";
     call_full_width_px := target_cover_width_px + bleed_size_px;
     call_full_height_px := target_height_px + 2 * bleed_size_px;
     call_left_offset_px := 0;
     call_bottom_offset_px := bleed_size_px;
     call_right_offset_px := bleed_size_px;
     call_top_offset_px := bleed_size_px |}.

(** The image work of [main], from the opened image to the three panels
    with their bleed. *)
Definition panels_with_bleed (resample : resampler) (img : Image)
  : result (Image * Image * Image) :=
  panels <- split_book_cover img 1630 1625 ;;
  let '(back_img, spine_img, front_img) := panels in
  let cover_dims := (target_cover_width_px, target_height_px) in
  let spine_dims := (target_spine_width_px, target_height_px) in
  front_scaled <- resize resample front_img (fst cover_dims) (snd cover_dims) ;;
  back_scaled <- resize resample back_img (fst cover_dims) (snd cover_dims) ;;
  spine_scaled <- resize resample spine_img (fst spine_dims) (snd spine_dims) ;;
  rescaled_all <- concatenate_images_horizontally [back_scaled; spine_scaled; front_scaled] ;;
  stretched <- add_stretched_border resample rescaled_all bleed_size_px 10 ;;
  split_book_cover stretched
    (target_cover_width_px + bleed_size_px)
    (target_cover_width_px + bleed_size_px).

Section Main.
Context {D : Type} `{Decimal D}.
Variable resample : resampler.
Variable save_pdf : renderer D.

(** The state of a run: the files written, and the trace of the
    [add_bleed_box] calls made so far. *)
Definition world : Type := (gmap string (list (Page D)) * list bleed_call)%type.

Definition traced_add_bleed_box (input_image : Image) (c : bleed_call) (w : world)
  : world * result unit :=
  let '(fs, res) :=
    add_bleed_box save_pdf (fst w) input_image dpi (call_path c)
      (call_full_width_px c) (call_full_height_px c)
      (call_left_offset_px c) (call_bottom_offset_px c)
      (call_right_offset_px c) (call_top_offset_px c) in
  ((fs, snd w ++ [c]), res).

Definition and_then (c : world -> world * result unit)
    (k : world -> world * result unit) (w : world) : world * result unit :=
  match c w with
  | (w', Ok _) => k w'
  | (w', Raise e) => (w', Raise e)
  end.

(** [main], run on the image [Image.open(in_file_path)] returned. *)
Definition main (img : Image) (w : world) : world * result unit :=
  match panels_with_bleed resample img with
  | Raise e => (w, Raise e)
  | Ok (back_with_bleed, spine_with_bleed, front_with_bleed) =>
    and_then (traced_add_bleed_box back_with_bleed back_call)
      (and_then (traced_add_bleed_box spine_with_bleed spine_call)
         (traced_add_bleed_box front_with_bleed front_call))
      w
  end.
End Main.

(** ** Concrete collaborators, for running the model

    A nearest-neighbour filter, and a PDF writer that renders one page of
    72 units per inch. *)

Definition nearest : resampler :=
  fun im w h x y => px im (x * width im / w) (y * height im / h).

Definition one_page (media : list Q) : renderer Q :=
  fun _ _ => Ok [mkPage media None].

Definition save_pdf_72 : renderer Q :=
  fun im resolution =>
    Ok [mkPage [0%Q; 0%Q;
                Qred (inject_Z (width im) * 72 / inject_Z resolution);
                Qred (inject_Z (height im) * 72 / inject_Z resolution)] None].

(** A flat image of one colour. *)
Definition flat (m : Mode) (w h : Z) (p : pixel) : Image :=
  mkImage m w h (fun _ _ => p).

(** The scan of the end-to-end check: 4880 x 1133, all red. *)
Definition red_scan : Image := flat RGB 4880 1133 [255; 0; 0].

(** A two-pixel image with an alpha band. *)
Definition rgba_pair : Image := flat RGBA 2 1 [10; 20; 30; 128].

(** A 4 x 2 image whose pixel at (x, y) is (x, y, 0). *)
Definition gradient : Image := mkImage RGB 4 2 (fun x y => [x; y; 0]).

(** The pixel rows of an image, top to bottom. *)
Definition rows (im : Image) : list (list pixel) :=
  map (fun y => map (fun x => px im (Z.of_nat x) (Z.of_nat y)) (seq 0 (Z.to_nat (width im))))
      (seq 0 (Z.to_nat (height im))).

(** ** Vocabulary for the outcome of a run *)

(** A document as [add_bleed_box] saves it: one page that carries a bleed
    box of four numbers. *)
Definition saved_document {D : Type} (doc : list (Page D)) : Prop :=
  exists page bleed,
    doc = [mkPage (MediaBox page) (Some bleed)] /\ length bleed = 4%nat.

(** The PDF writer scales pixels to page units uniformly at the resolution
    [main] uses: the page of an image is [0, 0, k * width, k * height]. *)
Definition uniform_renderer (save_pdf : renderer Q) (k : Q) : Prop :=
  forall im : Image, 1 <= width im -> 1 <= height im ->
    exists mw mh : Q,
      save_pdf im dpi = Ok [mkPage [0%Q; 0%Q; mw; mh] None] /\
      (mw == k * inject_Z (width im))%Q /\ (mh == k * inject_Z (height im))%Q.

(** * Properties *)

(** ** Deciding comparisons *)

Lemma Mode_eqb_spec a b : reflect (a = b) (Mode_eqb a b).
Proof. destruct a, b; constructor; congruence. Qed.

Lemma Mode_eqb_refl m : Mode_eqb m m = true.
Proof. now destruct m. Qed.

(** Settle every integer comparison of the goal that linear arithmetic
    decides from the context. *)
Ltac settle_tests :=
  repeat match goal with
  | |- context [Z.ltb ?a ?b] =>
      first [ replace (Z.ltb a b) with true by (symmetry; apply Z.ltb_lt; lia)
            | replace (Z.ltb a b) with false by (symmetry; apply Z.ltb_ge; lia) ]
  | |- context [Z.leb ?a ?b] =>
      first [ replace (Z.leb a b) with true by (symmetry; apply Z.leb_le; lia)
            | replace (Z.leb a b) with false by (symmetry; apply Z.leb_gt; lia) ]
  | |- context [Z.eqb ?a ?b] =>
      first [ replace (Z.eqb a b) with true by (symmetry; apply Z.eqb_eq; lia)
            | replace (Z.eqb a b) with false by (symmetry; apply Z.eqb_neq; lia) ]
  end;
  cbn [andb orb negb].

(** ** The model at work on a small image *)

Example split_gradient :
  match split_book_cover gradient 1 2 with
  | Ok (back_img, spine_img, front_img) =>
      rows back_img = [[[0; 0; 0]]; [[0; 1; 0]]] /\
      rows spine_img = [[[1; 0; 0]]; [[1; 1; 0]]] /\
      rows front_img = [[[2; 0; 0]; [3; 0; 0]]; [[2; 1; 0]; [3; 1; 0]]]
  | Raise _ => False
  end.
Proof. vm_compute. repeat split. Qed.

Example border_gradient :
  match add_stretched_border nearest gradient 1 1 with
  | Ok out =>
      rows out =
      [ [[0; 0; 0]; [0; 0; 0]; [1; 0; 0]; [2; 0; 0]; [3; 0; 0]; [3; 0; 0]];
        [[0; 0; 0]; [0; 0; 0]; [1; 0; 0]; [2; 0; 0]; [3; 0; 0]; [3; 0; 0]];
        [[0; 1; 0]; [0; 1; 0]; [1; 1; 0]; [2; 1; 0]; [3; 1; 0]; [3; 1; 0]];
        [[0; 1; 0]; [0; 1; 0]; [1; 1; 0]; [2; 1; 0]; [3; 1; 0]; [3; 1; 0]] ]
  | Raise _ => False
  end.
Proof. vm_compute. reflexivity. Qed.

Example concatenate_gradient_twice :
  match concatenate_images_horizontally [gradient; gradient] with
  | Ok out =>
      rows out =
      [ [[0; 0; 0]; [1; 0; 0]; [2; 0; 0]; [3; 0; 0];
         [0; 0; 0]; [1; 0; 0]; [2; 0; 0]; [3; 0; 0]];
        [[0; 1; 0]; [1; 1; 0]; [2; 1; 0]; [3; 1; 0];
         [0; 1; 0]; [1; 1; 0]; [2; 1; 0]; [3; 1; 0]] ]
  | Raise _ => False
  end.
Proof. vm_compute. reflexivity. Qed.

(** ** [crop] *)

Lemma crop_ok im x0 y0 x1 y1 :
  x0 <= x1 -> y0 <= y1 ->
  crop im (x0, y0, x1, y1) =
  Ok (mkImage (mode im) (x1 - x0) (y1 - y0)
        (fun x y => if inside im (x + x0) (y + y0)
                    then px im (x + x0) (y + y0)
                    else zero_pixel (mode im))).
Proof. intros. unfold crop. now settle_tests. Qed.

Lemma crop_inverted im x0 y0 x1 y1 :
  x1 < x0 ->
  crop im (x0, y0, x1, y1) = Raise (ValueError "Coordinate 'right' is less than 'left'").
Proof. intros. unfold crop. now settle_tests. Qed.

(** ** [split_book_cover]: sizes of the panels *)



(** ** [split_book_cover]: splits that do not fit *)




(** ** [concatenate_images_horizontally] *)

Lemma pixel_as_same (m : Mode) (im : Image) (x y : Z) :
  mode im = m -> pixel_as m im x y = px im x y.
Proof. intros <-. unfold pixel_as. now rewrite Mode_eqb_refl. Qed.

Lemma fold_add_shift (l : list Z) : forall a, fold_left Z.add l a = a + fold_left Z.add l 0.
Proof.
  induction l as [|h t IH]; intros a; cbn [fold_left]; [lia|].
  rewrite (IH (a + h)), (IH (0 + h)). lia.
Qed.

Lemma sum_widths_cons (im : Image) (l : list Image) :
  sum_widths (im :: l) = width im + sum_widths l.
Proof. unfold sum_widths. simpl. now rewrite fold_add_shift. Qed.

Lemma sum_widths_app (pre l : list Image) :
  sum_widths (pre ++ l) = sum_widths pre + sum_widths l.
Proof.
  induction pre as [|im pre IH]; [reflexivity|].
  rewrite <- app_comm_cons, !sum_widths_cons, IH. lia.
Qed.

Lemma sum_widths_nonneg (l : list Image) : Forall wf l -> 0 <= sum_widths l.
Proof.
  induction 1 as [|im l [Hw _] _ IH]; [reflexivity|].
  rewrite sum_widths_cons. lia.
Qed.

(** Two distinct heights in the list, against the size of the set. *)
Lemma distinct_count_two (heights : list Z) :
  1 < distinct_count heights <->
  exists a b, In a heights /\ In b heights /\ a <> b.
Proof.
  unfold distinct_count.
  pose proof (NoDup_nodup Z.eq_dec heights) as Hnd.
  pose proof (nodup_In Z.eq_dec heights) as Hin.
  destruct (nodup Z.eq_dec heights) as [|a [|b rest]]; simpl in *.
  - split; [lia|]. intros (a & _ & Ha & _). now apply Hin in Ha.
  - split; [lia|]. intros (x & y & Hx & Hy & Hne).
    apply Hin in Hx, Hy. destruct Hx as [<-|[]], Hy as [<-|[]]. congruence.
  - split; [|lia]. intros _. exists a, b.
    split; [apply Hin; auto|]. split; [apply Hin; auto|].
    inversion Hnd as [|? ? Hnotin _]; subst. intros ->. apply Hnotin. now left.
Qed.

Lemma height_mismatch_iff (images : list Image) :
  1 < distinct_count (map height images) <-> height_mismatch images.
Proof.
  unfold height_mismatch. rewrite distinct_count_two. split.
  - intros (ha & hb & Ha & Hb & Hne).
    apply in_map_iff in Ha as (a & <- & Ha). apply in_map_iff in Hb as (b & <- & Hb).
    now exists a, b.
  - intros (a & b & Ha & Hb & Hne). exists (height a), (height b).
    split; [now apply in_map|]. split; [now apply in_map|]. assumption.
Qed.

(** The paste loop keeps the canvas's mode and size and advances
    [current_width] by the widths pasted. *)
Lemma paste_loop_frame (images : list Image) : forall canvas off,
  let st := fold_left paste_step images (canvas, off) in
  mode (fst st) = mode canvas /\ width (fst st) = width canvas /\
  height (fst st) = height canvas /\ snd st = off + sum_widths images.
Proof.
  induction images as [|im rest IH]; intros canvas off; simpl.
  - unfold sum_widths; simpl. repeat split; lia.
  - destruct (IH (paste canvas im off 0) (off + width im)) as (Hm & Hw & Hh & Ho).
    rewrite sum_widths_cons. simpl in *. repeat split; try assumption. lia.
Qed.

(** Columns left of [current_width] are out of the loop's reach. *)
Lemma paste_loop_left (images : list Image) : forall canvas off x y,
  Forall wf images -> x < off ->
  px (fst (fold_left paste_step images (canvas, off))) x y = px canvas x y.
Proof.
  induction images as [|im rest IH]; intros canvas off x y Hwf Hx; [reflexivity|].
  inversion Hwf as [|? ? [Hw _] Hrest]; subst. simpl.
  rewrite IH by (auto; lia). simpl. unfold inside. now settle_tests.
Qed.

(** The image that follows the prefix [pre] lands at the column where
    [pre] ends. *)
Lemma paste_loop_placed (pre post : list Image) (im : Image) canvas off x y :
  Forall wf (pre ++ im :: post) ->
  0 <= x < width im -> 0 <= y < height im ->
  px (fst (fold_left paste_step (pre ++ im :: post) (canvas, off)))
     (off + sum_widths pre + x) y
  = pixel_as (mode canvas) im x y.
Proof.
  intros Hwf Hx Hy. rewrite fold_left_app.
  apply Forall_app in Hwf as [_ Hwf]. inversion Hwf as [|? ? _ Hpost]; subst.
  destruct (paste_loop_frame pre canvas off) as (Hm & _ & _ & Ho). simpl in Hm, Ho.
  destruct (fold_left paste_step pre (canvas, off)) as [c1 off1] eqn:E.
  simpl in *. subst off1.
  rewrite paste_loop_left by (auto; lia). simpl.
  unfold inside. settle_tests.
  replace (off + sum_widths pre + x - (off + sum_widths pre)) with x by lia.
  replace (y - 0) with y by lia. now rewrite Hm.
Qed.

(** Every column of the total width belongs to one input image. *)
Lemma column_owner (images : list Image) : forall X,
  Forall wf images -> 0 <= X < sum_widths images ->
  exists pre im post,
    images = pre ++ im :: post /\
    sum_widths pre <= X < sum_widths pre + width im.
Proof.
  induction images as [|im rest IH]; intros X Hwf HX.
  - unfold sum_widths in HX; simpl in HX. lia.
  - inversion Hwf as [|? ? [Hw _] Hrest]; subst. rewrite sum_widths_cons in HX.
    destruct (Z_lt_le_dec X (width im)) as [Hlt|Hge].
    + exists [], im, rest. split; [reflexivity|]. unfold sum_widths; simpl. lia.
    + destruct (IH (X - width im) Hrest) as (pre & im' & post & -> & Hr); [lia|].
      exists (im :: pre), im', post. split; [reflexivity|].
      rewrite sum_widths_cons. lia.
Qed.

Lemma concatenate_mismatch (images : list Image) :
  height_mismatch images ->
  concatenate_images_horizontally images = Raise HeightMismatch.
Proof.
  intros Hm. apply height_mismatch_iff in Hm. unfold concatenate_images_horizontally.
  now replace (1 <? distinct_count (map height images)) with true
    by (symmetry; apply Z.ltb_lt; assumption).
Qed.

Lemma concatenate_same_height (images : list Image) :
  images <> [] -> Forall wf images -> ~ height_mismatch images ->
  exists out,
    concatenate_images_horizontally images = Ok out /\
    mode out = RGB /\
    width out = sum_widths images /\
    (forall im, In im images -> height out = height im) /\
    (forall pre im post x y,
       images = pre ++ im :: post ->
       0 <= x < width im -> 0 <= y < height im ->
       px out (sum_widths pre + x) y = pixel_as RGB im x y) /\
    (forall X, 0 <= X < width out ->
       exists pre im post,
         images = pre ++ im :: post /\
         sum_widths pre <= X < sum_widths pre + width im).
Proof.
  intros Hne Hwf Hsame. unfold concatenate_images_horizontally.
  replace (1 <? distinct_count (map height images)) with false
    by (symmetry; apply Z.ltb_ge;
        destruct (Z_lt_le_dec 1 (distinct_count (map height images))) as [Hlt|]; [|lia];
        apply height_mismatch_iff in Hlt; contradiction).
  destruct images as [|first rest]; [congruence|]. cbn [bind].
  pose proof (sum_widths_nonneg _ Hwf) as Hsum.
  pose proof Hwf as Hwf'. inversion Hwf' as [|? ? [_ Hh] _]; subst.
  unfold Image_new. settle_tests. cbn [bind].
  set (canvas := mkImage RGB (sum_widths (first :: rest)) (height first)
                   (fun _ _ => zero_pixel RGB)).
  destruct (paste_loop_frame (first :: rest) canvas 0) as (Hm & Hw & Hh' & _).
  eexists. split; [reflexivity|].
  split; [exact Hm|]. split; [exact Hw|]. split; [|split].
  - intros im Him. rewrite Hh'. cbn [height canvas].
    destruct (Z.eq_dec (height first) (height im)) as [|Hd]; [assumption|].
    exfalso. apply Hsame. exists first, im. split; [now left|]. now split.
  - intros pre im post x y Heq Hx Hy. rewrite Heq.
    replace (sum_widths pre + x) with (0 + sum_widths pre + x) by lia.
    rewrite paste_loop_placed; [reflexivity| |assumption|assumption].
    now rewrite <- Heq.
  - intros X HX. rewrite Hw in HX. cbn [width canvas] in HX.
    now apply column_owner.
Qed.

Lemma height_mismatch_dec (images : list Image) :
  {height_mismatch images} + {~ height_mismatch images}.
Proof.
  destruct (Z_lt_le_dec 1 (distinct_count (map height images))) as [Hlt|Hle].
  - left. now apply height_mismatch_iff.
  - right. intros Hm. apply height_mismatch_iff in Hm. lia.
Qed.

(** C6: on a non-empty list, [concatenate_images_horizontally] fails
    exactly when two images differ in height, with the height-mismatch
    error and without an output image; otherwise its output is as wide
    as the inputs together, as high as each of them, and holds the inputs
    side by side in input order, each starting at the column where the
    previous one ends, every column taken by one of them. *)
Theorem concatenate_images_horizontally_spec (images : list Image) :
  images <> [] -> Forall wf images ->
  (height_mismatch images <->
   concatenate_images_horizontally images = Raise HeightMismatch) /\
  (height_mismatch images <->
   exists e, concatenate_images_horizontally images = Raise e) /\
  (height_mismatch images <->
   forall out, concatenate_images_horizontally images <> Ok out) /\
  (~ height_mismatch images ->
   exists out,
     concatenate_images_horizontally images = Ok out /\
     width out = sum_widths images /\
     (forall im, In im images -> height out = height im) /\
     (forall pre im post x y,
        images = pre ++ im :: post ->
        0 <= x < width im -> 0 <= y < height im ->
        px out (sum_widths pre + x) y = pixel_as RGB im x y) /\
     (forall X, 0 <= X < width out ->
        exists pre im post,
          images = pre ++ im :: post /\
          sum_widths pre <= X < sum_widths pre + width im)).
Proof.
  intros Hne Hwf.
  assert (Hgood : ~ height_mismatch images ->
                  exists out, concatenate_images_horizontally images = Ok out).
  { intros Hs. destruct (concatenate_same_height images Hne Hwf Hs) as (out & Hout & _).
    now exists out. }
  split; [|split; [|split]].
  - split; [apply concatenate_mismatch|]. intros Hr.
    destruct (height_mismatch_dec images) as [|Hs]; [assumption|].
    destruct (Hgood Hs) as (out & Hout). congruence.
  - split; [intros Hm; eexists; now apply concatenate_mismatch|]. intros [e Hr].
    destruct (height_mismatch_dec images) as [|Hs]; [assumption|].
    destruct (Hgood Hs) as (out & Hout). congruence.
  - split; [intros Hm out; rewrite (concatenate_mismatch _ Hm); discriminate|]. intros Hr.
    destruct (height_mismatch_dec images) as [|Hs]; [assumption|].
    destruct (Hgood Hs) as (out & Hout). now apply Hr in Hout.
  - intros Hs.
    destruct (concatenate_same_height images Hne Hwf Hs)
      as (out & Hout & _ & Hw & Hh & Hpx & Hcol).
    exists out. auto.
Qed.

Lemma concatenate_images_horizontally_spec_witness :
  (exists out,
     concatenate_images_horizontally [flat RGB 2 3 [1; 1; 1]; flat RGB 5 3 [2; 2; 2]]
       = Ok out /\
     width out = 7 /\ height out = 3 /\
     px out 1 0 = [1; 1; 1] /\ px out 2 0 = [2; 2; 2]) /\
  concatenate_images_horizontally [flat RGB 2 3 [1; 1; 1]; flat RGB 5 4 [2; 2; 2]]
    = Raise HeightMismatch.
Proof.
  split.
  - destruct (concatenate_images_horizontally_spec
                [flat RGB 2 3 [1; 1; 1]; flat RGB 5 3 [2; 2; 2]])
      as (_ & _ & _ & Hgood).
    + discriminate.
    + repeat constructor; simpl; lia.
    + destruct Hgood as (out & Hout & Hw & Hh & Hpx & _).
      * intros (a & b & Ha & Hb & Hne). simpl in Ha, Hb.
        destruct Ha as [<-|[<-|[]]], Hb as [<-|[<-|[]]]; now apply Hne.
      * exists out. split; [exact Hout|]. split; [exact Hw|].
        split; [apply (Hh (flat RGB 2 3 [1; 1; 1])); now left|].
        split.
        -- apply (Hpx [] (flat RGB 2 3 [1; 1; 1]) [flat RGB 5 3 [2; 2; 2]] 1 0);
             [reflexivity|simpl; lia|simpl; lia].
        -- apply (Hpx [flat RGB 2 3 [1; 1; 1]] (flat RGB 5 3 [2; 2; 2]) [] 0 0);
             [reflexivity|simpl; lia|simpl; lia].
  - apply (concatenate_images_horizontally_spec
             [flat RGB 2 3 [1; 1; 1]; flat RGB 5 4 [2; 2; 2]]).
    + discriminate.
    + repeat constructor; simpl; lia.
    + exists (flat RGB 2 3 [1; 1; 1]), (flat RGB 5 4 [2; 2; 2]).
      simpl. repeat split; auto; lia.
Defined.

(** C10: on the empty list the height check passes, there being no two
    heights to differ, and the function then fails on [images[0]] with
    an index error, not with the height-mismatch error. *)
Theorem concatenate_images_horizontally_empty :
  (1 <? distinct_count (map height [])) = false /\
  concatenate_images_horizontally [] = Raise (IndexError "list index out of range") /\
  concatenate_images_horizontally [] <> Raise HeightMismatch /\
  forall out, concatenate_images_horizontally [] <> Ok out.
Proof.
  split; [reflexivity|]. split; [reflexivity|]. split; [discriminate|].
  intros out. discriminate.
Qed.

(** ** Splitting, then concatenating *)





(** ** [add_stretched_border] *)

Lemma resize_ok (resample : resampler) (im : Image) (w h : Z) :
  1 <= w -> 1 <= h ->
  exists out,
    resize resample im w h = Ok out /\
    mode out = mode im /\ width out = w /\ height out = h.
Proof.
  intros Hw Hh. unfold resize.
  destruct (w =? width im) eqn:Ew; destruct (h =? height im) eqn:Eh; cbn [andb];
    try (settle_tests; eexists; split; [reflexivity|]; now repeat split).
  apply Z.eqb_eq in Ew, Eh. exists im. repeat split; congruence.
Qed.


Lemma getpixel_inside (im : Image) (x y : Z) :
  0 <= x < width im -> 0 <= y < height im -> getpixel im x y = Ok (px im x y).
Proof. intros Hx Hy. unfold getpixel, inside. now settle_tests. Qed.


(** One level of pasting at a time: the canvas is a tower of nine
    pastes, read from the outside in. *)
Lemma width_paste self im x y : width (paste self im x y) = width self.
Proof. reflexivity. Qed.

Lemma height_paste self im x y : height (paste self im x y) = height self.
Proof. reflexivity. Qed.

Lemma mode_paste self im x y : mode (paste self im x y) = mode self.
Proof. reflexivity. Qed.

Lemma width_paste_color self c b : width (paste_color self c b) = width self.
Proof. now destruct b as [[[? ?] ?] ?]. Qed.

Lemma height_paste_color self c b : height (paste_color self c b) = height self.
Proof. now destruct b as [[[? ?] ?] ?]. Qed.

Lemma mode_paste_color self c b : mode (paste_color self c b) = mode self.
Proof. now destruct b as [[[? ?] ?] ?]. Qed.

Lemma px_paste_in self im x y i j :
  0 <= i - x < width im -> 0 <= j - y < height im ->
  px (paste self im x y) i j = pixel_as (mode self) im (i - x) (j - y).
Proof. intros Hi Hj. unfold paste, inside. cbn [px]. now settle_tests. Qed.

Lemma px_paste_out self im x y i j :
  ~ (0 <= i - x < width im /\ 0 <= j - y < height im) ->
  px (paste self im x y) i j = px self i j.
Proof.
  intros Hout. unfold paste, inside. cbn [px].
  destruct (Z.leb_spec 0 (i - x)), (Z.ltb_spec (i - x) (width im)),
    (Z.leb_spec 0 (j - y)), (Z.ltb_spec (j - y) (height im)); cbn [andb];
    try reflexivity.
  exfalso. apply Hout. lia.
Qed.

Lemma px_paste_color_in self c x0 y0 x1 y1 i j :
  x0 <= i < x1 -> y0 <= j < y1 ->
  px (paste_color self c (x0, y0, x1, y1)) i j = ink (mode self) c.
Proof. intros Hi Hj. unfold paste_color. cbn [px]. now settle_tests. Qed.

Lemma px_paste_color_out self c x0 y0 x1 y1 i j :
  ~ (x0 <= i < x1 /\ y0 <= j < y1) ->
  px (paste_color self c (x0, y0, x1, y1)) i j = px self i j.
Proof.
  intros Hout. unfold paste_color. cbn [px].
  destruct (Z.leb_spec x0 i), (Z.ltb_spec i x1),
    (Z.leb_spec y0 j), (Z.ltb_spec j y1); cbn [andb];
    try reflexivity.
  exfalso. apply Hout. lia.
Qed.

(** Read a pixel through the tower, settling each level by arithmetic. *)
Ltac read_pixel :=
  repeat first
    [ rewrite px_paste_color_in by lia
    | rewrite px_paste_color_out by lia
    | rewrite px_paste_in by lia
    | rewrite px_paste_out by lia ];
  rewrite ?mode_paste_color, ?mode_paste.








(** ** [add_bleed_box] *)

Lemma assert_ok (b : bool) : assert b = Ok tt -> b = true.
Proof. destruct b; [reflexivity|discriminate]. Qed.

Lemma bind_ok {A B : Type} (c : result A) (k : A -> result B) (b : B) :
  bind c k = Ok b -> exists a, c = Ok a /\ k a = Ok b.
Proof. destruct c as [a|e]; [intros Hk; now exists a|discriminate]. Qed.

Lemma index_ok {A : Type} (l : list A) (i : nat) (a : A) :
  index l i = Ok a -> l !! i = Some a.
Proof. unfold index. destruct (l !! i); [congruence|discriminate]. Qed.

Lemma index_some {A : Type} (l : list A) (i : nat) (a : A) :
  l !! i = Some a -> index l i = Ok a.
Proof. unfold index. now intros ->. Qed.

Lemma divide_ok {D : Type} `{Decimal D} (a b q : D) :
  divide a b = Ok q -> dec_div a b = Some q.
Proof. unfold divide. destruct (dec_div a b); [congruence|discriminate]. Qed.

Section BleedBoxFacts.
Context {D : Type} `{Decimal D}.

(** What a document that passed both assertions looks like. *)
Lemma bleed_document_ok (pdf out : list (Page D)) (fw fh l b r t : Z) :
  bleed_document pdf fw fh l b r t = Ok out ->
  exists page m0 m1 m2 m3 unit_per_px,
    pdf = [page] /\
    MediaBox page !! 0%nat = Some m0 /\ MediaBox page !! 1%nat = Some m1 /\
    MediaBox page !! 2%nat = Some m2 /\ MediaBox page !! 3%nat = Some m3 /\
    dec_div (dec_sub m2 m0) (dec_of_Z fw) = Some unit_per_px /\
    out = [set_bleedbox page
             [ dec_add m0 (dec_mul (dec_of_Z l) unit_per_px);
               dec_add m1 (dec_mul (dec_of_Z t) unit_per_px);
               dec_sub m2 (dec_mul (dec_of_Z r) unit_per_px);
               dec_sub m3 (dec_mul (dec_of_Z b) unit_per_px) ]].
Proof.
  unfold bleed_document. intros Hdoc.
  apply bind_ok in Hdoc as ([] & Hlen & Hdoc). apply assert_ok in Hlen.
  apply Nat.eqb_eq in Hlen.
  destruct pdf as [|page [|? ?]]; try discriminate. cbn [index lookup] in Hdoc.
  apply bind_ok in Hdoc as (page' & Hpage & Hdoc). apply index_ok in Hpage.
  injection Hpage as <-.
  apply bind_ok in Hdoc as (m2 & Hm2 & Hdoc). apply index_ok in Hm2.
  apply bind_ok in Hdoc as (m0 & Hm0 & Hdoc). apply index_ok in Hm0.
  apply bind_ok in Hdoc as (m3 & Hm3 & Hdoc). apply index_ok in Hm3.
  apply bind_ok in Hdoc as (m1 & Hm1 & Hdoc). apply index_ok in Hm1.
  apply bind_ok in Hdoc as (u & Hu & Hdoc). apply divide_ok in Hu.
  apply bind_ok in Hdoc as (u' & Hu' & Hdoc).
  apply bind_ok in Hdoc as ([] & Heq & Hdoc).
  injection Hdoc as <-.
  exists page, m0, m1, m2, m3, u. repeat split; assumption.
Qed.

(** A page count other than one, or scales that are not both defined
    and equal, stop the run before anything is saved. *)
Lemma bleed_document_fatal (pdf : list (Page D)) (fw fh l b r t : Z) :
  (length pdf <> 1%nat \/
   exists page m0 m1 m2 m3,
     pdf = [page] /\
     MediaBox page !! 0%nat = Some m0 /\ MediaBox page !! 1%nat = Some m1 /\
     MediaBox page !! 2%nat = Some m2 /\ MediaBox page !! 3%nat = Some m3 /\
     forall u u',
       dec_div (dec_sub m2 m0) (dec_of_Z fw) = Some u ->
       dec_div (dec_sub m3 m1) (dec_of_Z fh) = Some u' ->
       dec_eqb u u' = false) ->
  exists e, bleed_document pdf fw fh l b r t = Raise e /\
            (e = AssertionError \/ e = DecimalException).
Proof.
  intros [Hlen | (page & m0 & m1 & m2 & m3 & -> & H0 & H1 & H2 & H3 & Hne)].
  - exists AssertionError. split; [|now left]. unfold bleed_document.
    apply Nat.eqb_neq in Hlen. now rewrite Hlen.
  - unfold bleed_document. cbn [length Nat.eqb assert bind].
    change (index [page] 0) with (Ok page). cbn [bind].
    rewrite (index_some _ _ _ H2), (index_some _ _ _ H0),
      (index_some _ _ _ H3), (index_some _ _ _ H1).
    cbn [bind]. unfold divide.
    destruct (dec_div (dec_sub m2 m0) (dec_of_Z fw)) as [u|] eqn:Eu;
      [|exists DecimalException; split; [reflexivity|now right]].
    destruct (dec_div (dec_sub m3 m1) (dec_of_Z fh)) as [u'|] eqn:Eu';
      [|exists DecimalException; split; [reflexivity|now right]].
    cbn [bind]. rewrite (Hne u u' eq_refl eq_refl).
    exists AssertionError. split; [reflexivity|now left].
Qed.
End BleedBoxFacts.



(** C7: when the rendered document has not exactly one page, or the
    scale of its width differs from the scale of its height (or one of
    them is undefined), the call fails and the file system is as it was:
    nothing is written at the output path. *)
Theorem add_bleed_box_fatal {D : Type} `{Decimal D} (save_pdf : renderer D)
    (fs : gmap string (list (Page D))) (input_image : Image) (dpi : Z)
    (output_pdf_path : string) (full_width_px full_height_px : Z)
    (left_offset_px bottom_offset_px right_offset_px top_offset_px : Z)
    (pdf : list (Page D)) :
  save_pdf input_image dpi = Ok pdf ->
  (length pdf <> 1%nat \/
   exists page m0 m1 m2 m3,
     pdf = [page] /\
     MediaBox page !! 0%nat = Some m0 /\ MediaBox page !! 1%nat = Some m1 /\
     MediaBox page !! 2%nat = Some m2 /\ MediaBox page !! 3%nat = Some m3 /\
     forall u u',
       dec_div (dec_sub m2 m0) (dec_of_Z full_width_px) = Some u ->
       dec_div (dec_sub m3 m1) (dec_of_Z full_height_px) = Some u' ->
       dec_eqb u u' = false) ->
  exists e,
    add_bleed_box save_pdf fs input_image dpi output_pdf_path
      full_width_px full_height_px
      left_offset_px bottom_offset_px right_offset_px top_offset_px = (fs, Raise e) /\
    (e = AssertionError \/ e = DecimalException).
Proof.
  intros Hsave Hbad. unfold add_bleed_box. rewrite Hsave. cbn [bind].
  destruct (bleed_document_fatal pdf full_width_px full_height_px
              left_offset_px bottom_offset_px right_offset_px top_offset_px Hbad)
    as (e & -> & He).
  now exists e.
Qed.

Lemma add_bleed_box_fatal_witness :
  exists e,
    add_bleed_box (one_page [0; 0; 1700; 1133]%Q) ∅ red_scan 300 "out.pdf"
      1700 1132 37 37 37 37 = (∅, Raise e) /\
    (e = AssertionError \/ e = DecimalException).
Proof.
  apply (add_bleed_box_fatal (one_page [0; 0; 1700; 1133]%Q) ∅ red_scan 300 "out.pdf"
           1700 1132 37 37 37 37 [mkPage [0; 0; 1700; 1133]%Q None]).
  - reflexivity.
  - right. exists (mkPage [0; 0; 1700; 1133]%Q None), 0%Q, 0%Q, 1700%Q, 1133%Q.
    repeat split. intros u u' Hu Hu'. vm_compute in Hu, Hu'.
    injection Hu as <-. injection Hu' as <-. reflexivity.
Defined.

(** ** [main] *)

Section MainFacts.
Context {D : Type} `{Decimal D}.
Variable resample : resampler.
Variable save_pdf : renderer D.


End MainFacts.



(** A complete run: the red 4880 x 1133 scan, rendered at 72 units per
    inch, makes all three calls and writes the three files. *)
Example main_red_scan :
  snd (main nearest save_pdf_72 red_scan (∅, [])) = Ok tt /\
  snd (fst (main nearest save_pdf_72 red_scan (∅, []))) = [back_call; spine_call; front_call] /\
  dom (fst (fst (main nearest save_pdf_72 red_scan (∅, [])))) =
    ({["back.pdf"; "spine.pdf"; "front.pdf"]} : gset string).
Proof. vm_compute. repeat split. Qed.


(** * Further properties of the pipeline *)

(** ** [split_book_cover]: what the panels hold, and when it succeeds *)

Lemma split_book_cover_ok (image : Image) (back_width front_width : Z) :
  wf image ->
  0 <= back_width -> 0 <= front_width -> back_width + front_width <= width image ->
  split_book_cover image back_width front_width =
  Ok (mkImage (mode image) (back_width - 0) (height image - 0)
        (fun x y => if inside image (x + 0) (y + 0) then px image (x + 0) (y + 0)
                    else zero_pixel (mode image)),
      mkImage (mode image)
        (back_width + (width image - back_width - front_width) - back_width)
        (height image - 0)
        (fun x y => if inside image (x + back_width) (y + 0)
                    then px image (x + back_width) (y + 0)
                    else zero_pixel (mode image)),
      mkImage (mode image) (width image - (width image - front_width)) (height image - 0)
        (fun x y => if inside image (x + (width image - front_width)) (y + 0)
                    then px image (x + (width image - front_width)) (y + 0)
                    else zero_pixel (mode image))).
Proof.
  intros [Hw Hh] Hb Hf Hsum. unfold split_book_cover.
  rewrite !crop_ok by lia. reflexivity.
Qed.





(** ** [add_stretched_border]: the whole layout, for every mode *)

(** The strips and borders the function computes, and where each lands.
    Pixels arrive as the RGB canvas receives them. *)
Lemma add_stretched_border_layout (resample : resampler) (image : Image)
    (border_size_px stretch_pixel_width : Z) :
  1 <= width image -> 1 <= height image ->
  1 <= border_size_px -> 1 <= stretch_pixel_width ->
  exists left_strip right_strip top_strip bottom_strip
         left_border right_border top_border bottom_border out,
    crop image (0, 0,
                Z.min (Z.min stretch_pixel_width (width image)) (height image),
                height image) = Ok left_strip /\
    crop image (width image
                  - Z.min (Z.min stretch_pixel_width (width image)) (height image),
                0, width image, height image) = Ok right_strip /\
    crop image (0, 0, width image,
                Z.min (Z.min stretch_pixel_width (width image)) (height image))
      = Ok top_strip /\
    crop image (0,
                height image
                  - Z.min (Z.min stretch_pixel_width (width image)) (height image),
                width image, height image) = Ok bottom_strip /\
    resize resample left_strip border_size_px (height image) = Ok left_border /\
    resize resample right_strip border_size_px (height image) = Ok right_border /\
    resize resample top_strip (width image) border_size_px = Ok top_border /\
    resize resample bottom_strip (width image) border_size_px = Ok bottom_border /\
    add_stretched_border resample image border_size_px stretch_pixel_width = Ok out /\
    mode out = RGB /\
    width out = width image + 2 * border_size_px /\
    height out = height image + 2 * border_size_px /\
    (forall x y, 0 <= x < width image -> 0 <= y < height image ->
       px out (border_size_px + x) (border_size_px + y) = pixel_as RGB image x y) /\
    (forall x y, 0 <= x < border_size_px -> 0 <= y < height image ->
       px out x (border_size_px + y) = pixel_as RGB left_border x y /\
       px out (border_size_px + width image + x) (border_size_px + y)
         = pixel_as RGB right_border x y) /\
    (forall x y, 0 <= x < width image -> 0 <= y < border_size_px ->
       px out (border_size_px + x) y = pixel_as RGB top_border x y /\
       px out (border_size_px + x) (border_size_px + height image + y)
         = pixel_as RGB bottom_border x y) /\
    (forall x y, 0 <= x < border_size_px -> 0 <= y < border_size_px ->
       px out x y = ink RGB (px image 0 0) /\
       px out (border_size_px + width image + x) y
         = ink RGB (px image (width image - 1) 0) /\
       px out x (border_size_px + height image + y)
         = ink RGB (px image 0 (height image - 1)) /\
       px out (border_size_px + width image + x) (border_size_px + height image + y)
         = ink RGB (px image (width image - 1) (height image - 1))).
Proof.
  intros Hw Hh HB HS. unfold add_stretched_border.
  set (W := width image) in *. set (H := height image) in *.
  set (B := border_size_px) in *.
  set (s := Z.min (Z.min stretch_pixel_width W) H).
  assert (Hs : 1 <= s <= W /\ s <= H) by (unfold s; lia).
  clearbody s.
  rewrite (crop_ok image 0 0 s H) by lia.
  rewrite (crop_ok image (W - s) 0 W H) by lia.
  rewrite (crop_ok image 0 0 W s) by lia.
  rewrite (crop_ok image 0 (H - s) W H) by lia. cbn [bind].
  set (ls := mkImage (mode image) (s - 0) (H - 0) _).
  set (rs := mkImage (mode image) (W - (W - s)) (H - 0) _).
  set (ts := mkImage (mode image) (W - 0) (s - 0) _).
  set (bs := mkImage (mode image) (W - 0) (H - (H - s)) _).
  destruct (resize_ok resample ls B H) as (lb & Elb & _ & Hlbw & Hlbh); [lia|lia|].
  destruct (resize_ok resample rs B H) as (rb & Erb & _ & Hrbw & Hrbh); [lia|lia|].
  destruct (resize_ok resample ts W B) as (tb & Etb & _ & Htbw & Htbh); [lia|lia|].
  destruct (resize_ok resample bs W B) as (bb & Ebb & _ & Hbbw & Hbbh); [lia|lia|].
  rewrite Elb, Erb, Etb, Ebb. cbn [bind].
  unfold Image_new. settle_tests. cbn [bind].
  rewrite (getpixel_inside image 0 0) by (fold W H; lia).
  rewrite (getpixel_inside image (W - 1) 0) by (fold W H; lia).
  rewrite (getpixel_inside image 0 (H - 1)) by (fold W H; lia).
  rewrite (getpixel_inside image (W - 1) (H - 1)) by (fold W H; lia).
  cbn [bind].
  set (canvas := mkImage RGB (W + 2 * B) (H + 2 * B) (fun _ _ => zero_pixel RGB)).
  exists ls, rs, ts, bs, lb, rb, tb, bb. eexists.
  do 8 (split; [first [reflexivity | assumption]|]).
  split; [reflexivity|].
  split; [now rewrite !mode_paste_color, !mode_paste|].
  split; [now rewrite !width_paste_color, !width_paste|].
  split; [now rewrite !height_paste_color, !height_paste|].
  split; [|split; [|split]].
  - intros x y Hx Hy. fold W H in Hx, Hy. read_pixel. cbn [mode canvas]. f_equal; lia.
  - intros x y Hx Hy. split; read_pixel; cbn [mode canvas]; f_equal; lia.
  - intros x y Hx Hy. split; read_pixel; cbn [mode canvas]; f_equal; lia.
  - intros x y Hx Hy. repeat split; read_pixel; reflexivity.
Qed.



(** ** [add_stretched_border]: arguments out of range *)

(** X4: a stretch width at least as large as the smaller side of the
    image is clamped to that side: the call returns what it returns for
    [stretch_pixel_width = min(width, height)]. *)
Theorem add_stretched_border_clamped (resample : resampler) (image : Image)
    (border_size_px stretch_pixel_width : Z) :
  Z.min (width image) (height image) <= stretch_pixel_width ->
  add_stretched_border resample image border_size_px stretch_pixel_width
  = add_stretched_border resample image border_size_px
      (Z.min (width image) (height image)).
Proof.
  intros HS. unfold add_stretched_border.
  replace (Z.min (Z.min stretch_pixel_width (width image)) (height image))
    with (Z.min (width image) (height image)) by lia.
  replace (Z.min (Z.min (Z.min (width image) (height image)) (width image)) (height image))
    with (Z.min (width image) (height image)) by lia.
  reflexivity.
Qed.

Lemma add_stretched_border_clamped_witness :
  add_stretched_border nearest gradient 3 10
  = add_stretched_border nearest gradient 3 (Z.min 4 2).
Proof.
  apply (add_stretched_border_clamped nearest gradient 3 10). simpl. lia.
Defined.

(** X5: a negative stretch width makes the first crop rectangle
    inverted: the call raises [crop]'s ValueError, whatever the border. *)
Theorem add_stretched_border_negative_stretch (resample : resampler) (image : Image)
    (border_size_px stretch_pixel_width : Z) :
  wf image -> stretch_pixel_width < 0 ->
  add_stretched_border resample image border_size_px stretch_pixel_width
  = Raise (ValueError "Coordinate 'right' is less than 'left'").
Proof.
  intros [Hw Hh] HS. unfold add_stretched_border.
  now rewrite crop_inverted by lia.
Qed.

Lemma add_stretched_border_negative_stretch_witness :
  add_stretched_border nearest gradient 3 (-1)
  = Raise (ValueError "Coordinate 'right' is less than 'left'").
Proof.
  apply (add_stretched_border_negative_stretch nearest gradient 3 (-1));
    unfold wf; simpl; lia.
Defined.



(** ** What every returned image looks like *)

Lemma Ok_inj {A : Type} (a b : A) : Ok a = Ok b -> a = b.
Proof. now intros [= ->]. Qed.

Ltac open_binds H :=
  repeat (let a := fresh "v" in let E := fresh "E" in
          apply bind_ok in H as (a & E & H)).

(** X7: whenever [add_stretched_border] returns an image, on whatever
    arguments, the image is RGB and of size
    (width + 2 * border_size_px, height + 2 * border_size_px). *)
Theorem add_stretched_border_returns (resample : resampler) (image : Image)
    (border_size_px stretch_pixel_width : Z) (out : Image) :
  add_stretched_border resample image border_size_px stretch_pixel_width = Ok out ->
  mode out = RGB /\
  width out = width image + 2 * border_size_px /\
  height out = height image + 2 * border_size_px.
Proof.
  intros Hout. unfold add_stretched_border in Hout.
  open_binds Hout. apply Ok_inj in Hout. subst out.
  rewrite !mode_paste_color, !mode_paste, !width_paste_color, !width_paste,
    !height_paste_color, !height_paste.
  match goal with E : Image_new _ _ _ = Ok ?c |- _ =>
    unfold Image_new in E;
    destruct ((width image + 2 * border_size_px <? 0)
              || (height image + 2 * border_size_px <? 0)); [discriminate|];
    apply Ok_inj in E; subst c end.
  now repeat split.
Qed.

Lemma add_stretched_border_returns_witness :
  exists out,
    add_stretched_border nearest rgba_pair 3 1 = Ok out /\
    mode out = RGB /\ width out = 2 + 2 * 3 /\ height out = 1 + 2 * 3.
Proof.
  eexists. split; [vm_compute; reflexivity|].
  eapply (add_stretched_border_returns nearest rgba_pair 3 1).
  vm_compute. reflexivity.
Defined.

(** X8: whenever [concatenate_images_horizontally] returns an image,
    the list was not empty and the image is RGB, as wide as the inputs
    together and as high as the first of them, whatever the modes of the
    inputs. *)
Theorem concatenate_images_horizontally_returns (images : list Image) (out : Image) :
  concatenate_images_horizontally images = Ok out ->
  mode out = RGB /\
  width out = sum_widths images /\
  exists first rest, images = first :: rest /\ height out = height first.
Proof.
  unfold concatenate_images_horizontally. intros Hout.
  destruct (1 <? distinct_count (map height images)); [discriminate|].
  destruct images as [|first rest]; [discriminate|]. cbn [bind] in Hout.
  apply bind_ok in Hout as (canvas & Ecanvas & Hout). apply Ok_inj in Hout. subst out.
  unfold Image_new in Ecanvas.
  destruct ((sum_widths (first :: rest) <? 0) || (height first <? 0)); [discriminate|].
  apply Ok_inj in Ecanvas. subst canvas.
  match goal with |- context [fold_left paste_step ?l (?c, 0)] =>
    destruct (paste_loop_frame l c 0) as (Hm & Hw & Hh & _) end.
  split; [exact Hm|]. split; [exact Hw|]. exists first, rest. split; [reflexivity|exact Hh].
Qed.

Lemma concatenate_images_horizontally_returns_witness :
  exists out,
    concatenate_images_horizontally [flat RGBA 2 2 [1; 2; 3; 4]; gradient; flat L 1 2 [5]]
      = Ok out /\
    mode out = RGB /\
    width out = sum_widths [flat RGBA 2 2 [1; 2; 3; 4]; gradient; flat L 1 2 [5]] /\
    exists first rest,
      [flat RGBA 2 2 [1; 2; 3; 4]; gradient; flat L 1 2 [5]] = first :: rest /\
      height out = height first.
Proof.
  eexists. split; [vm_compute; reflexivity|].
  apply (concatenate_images_horizontally_returns
           [flat RGBA 2 2 [1; 2; 3; 4]; gradient; flat L 1 2 [5]]).
  vm_compute. reflexivity.
Defined.

(** ** Concatenating in two steps *)

(** An image that sits in [xs ++ ys] after the prefix [pre] sits in
    [xs] or in [ys]. *)
Lemma split_position {A : Type} (xs ys pre post : list A) (a : A) :
  xs ++ ys = pre ++ a :: post ->
  (exists post', xs = pre ++ a :: post' /\ post = post' ++ ys) \/
  (exists pre', ys = pre' ++ a :: post /\ pre = xs ++ pre').
Proof.
  intros Heq. apply app_eq_app in Heq as [l [[Hxs Hpost] | [Hpre Hys]]].
  - destruct l as [|b l].
    + right. exists []. rewrite app_nil_r in Hxs. subst. simpl in Hpost.
      split; [now symmetry|now rewrite app_nil_r].
    + left. simpl in Hpost. injection Hpost as <- ->. now exists l.
  - right. now exists l.
Qed.

Lemma height_mismatch_sub (xs ys : list Image) :
  (forall a, In a xs -> In a ys) -> height_mismatch xs -> height_mismatch ys.
Proof. intros Hsub (a & b & Ha & Hb & Hne). exists a, b. auto. Qed.

(** X9: concatenation can be done in two steps.  For a non-empty list
    [xs] and a list [ys] of images of one height, concatenating [xs]
    first and the result with [ys] gives the same image as concatenating
    [xs ++ ys] at once, whatever the modes of the inputs. *)
Theorem concatenate_images_horizontally_nested (xs ys : list Image) :
  xs <> [] -> Forall wf (xs ++ ys) -> ~ height_mismatch (xs ++ ys) ->
  exists inner nested direct,
    concatenate_images_horizontally xs = Ok inner /\
    concatenate_images_horizontally (inner :: ys) = Ok nested /\
    concatenate_images_horizontally (xs ++ ys) = Ok direct /\
    same_image nested direct.
Proof.
  intros Hne Hwf Hsame.
  pose proof Hwf as Hwf'. apply Forall_app in Hwf' as [Hwfx Hwfy].
  destruct xs as [|x0 xs0] eqn:Exs; [congruence|]. rewrite <- Exs in *.
  assert (Hx0 : In x0 xs) by (rewrite Exs; now left).
  (* the inner concatenation *)
  destruct (concatenate_same_height xs) as (inner & Hinner & Him & Hiw & Hih & Hipx & _);
    [assumption|assumption| |].
  { intros Hm. apply Hsame. revert Hm. apply height_mismatch_sub.
    intros a Ha. apply in_or_app. now left. }
  assert (Hih0 : height inner = height x0) by now apply Hih.
  assert (Hall : forall a, In a (xs ++ ys) -> height a = height x0).
  { intros a Ha. destruct (Z.eq_dec (height a) (height x0)) as [|Hd]; [assumption|].
    exfalso. apply Hsame. exists a, x0. split; [assumption|].
    split; [apply in_or_app; now left|assumption]. }
  assert (Hwfi : wf inner).
  { split; [rewrite Hiw; now apply sum_widths_nonneg|].
    rewrite Hih0. pose proof Hwfx as Hwf0. rewrite Exs in Hwf0.
    now inversion Hwf0 as [|? ? [_ Hh0] _]. }
  (* the outer concatenation *)
  destruct (concatenate_same_height (inner :: ys))
    as (nested & Hnested & Hnm & Hnw & Hnh & Hnpx & _).
  { discriminate. }
  { now constructor. }
  { intros (a & b & Ha & Hb & Hd). apply Hd.
    assert (Hh : forall c, In c (inner :: ys) -> height c = height x0).
    { intros c [<-|Hc]; [assumption|]. apply Hall, in_or_app. now right. }
    now rewrite (Hh a Ha), (Hh b Hb). }
  (* the direct concatenation *)
  destruct (concatenate_same_height (xs ++ ys))
    as (direct & Hdirect & Hdm & Hdw & Hdh & Hdpx & Hdcol).
  { rewrite Exs. discriminate. }
  { assumption. }
  { assumption. }
  exists inner, nested, direct. repeat (split; [assumption|]).
  assert (Hwd : width nested = width direct).
  { rewrite Hnw, Hdw, sum_widths_cons, sum_widths_app. lia. }
  assert (Hhd : height nested = height direct).
  { rewrite (Hnh inner) by now left. rewrite (Hdh x0) by (apply in_or_app; now left).
    assumption. }
  assert (Hhi : height inner = height direct).
  { rewrite <- Hhd. symmetry. apply Hnh. now left. }
  split; [congruence|]. split; [assumption|]. split; [assumption|].
  intros X Y HX HY. rewrite Hwd in HX. rewrite Hhd in HY.
  destruct (Hdcol X HX) as (pre & im & post & Hdec & Hcol).
  assert (Him_h : height im = height direct).
  { symmetry. apply Hdh. rewrite Hdec. apply in_or_app. right. now left. }
  replace X with (sum_widths pre + (X - sum_widths pre)) at 2 by lia.
  rewrite (Hdpx pre im post) by (auto; lia).
  destruct (split_position xs ys pre post im Hdec)
    as [(post' & Hxs & _) | (pre' & Hys & Hpre)].
  - (* the column belongs to an image of [xs] *)
    assert (HXi : 0 <= X < width inner).
    { rewrite Hiw, Hxs, sum_widths_app, sum_widths_cons.
      assert (0 <= sum_widths post').
      { apply sum_widths_nonneg. rewrite Hxs in Hwfx.
        apply Forall_app in Hwfx as [_ Hwfx]. now inversion Hwfx. }
      lia. }
    replace X with (sum_widths [] + X) at 1 by (unfold sum_widths; simpl; lia).
    rewrite (Hnpx [] inner ys) by (try reflexivity; lia).
    rewrite pixel_as_same by assumption.
    replace X with (sum_widths pre + (X - sum_widths pre)) at 1 by lia.
    apply (Hipx pre im post'); [assumption|lia|lia].
  - (* the column belongs to an image of [ys] *)
    replace X with (sum_widths (inner :: pre') + (X - sum_widths pre)) at 1
      by (rewrite sum_widths_cons, Hiw, Hpre, sum_widths_app; lia).
    apply (Hnpx (inner :: pre') im post); [now rewrite Hys|lia|lia].
Qed.

Lemma concatenate_images_horizontally_nested_witness :
  exists inner nested direct,
    concatenate_images_horizontally [flat RGBA 2 2 [1; 2; 3; 4]; gradient] = Ok inner /\
    concatenate_images_horizontally (inner :: [flat L 1 2 [5]]) = Ok nested /\
    concatenate_images_horizontally
      ([flat RGBA 2 2 [1; 2; 3; 4]; gradient] ++ [flat L 1 2 [5]]) = Ok direct /\
    same_image nested direct.
Proof.
  apply (concatenate_images_horizontally_nested
           [flat RGBA 2 2 [1; 2; 3; 4]; gradient] [flat L 1 2 [5]]).
  - discriminate.
  - repeat constructor; simpl; lia.
  - intros (a & b & Ha & Hb & Hd). simpl in Ha, Hb.
    destruct Ha as [<-|[<-|[<-|[]]]], Hb as [<-|[<-|[<-|[]]]]; now apply Hd.
Defined.

(** ** [add_bleed_box]: when it succeeds, and what it leaves alone *)

Section BleedBoxMore.
Context {D : Type} `{Decimal D}.

Lemma bleed_document_good (page : Page D) (m0 m1 m2 m3 u u' : D) (fw fh l b r t : Z) :
  MediaBox page !! 0%nat = Some m0 -> MediaBox page !! 1%nat = Some m1 ->
  MediaBox page !! 2%nat = Some m2 -> MediaBox page !! 3%nat = Some m3 ->
  dec_div (dec_sub m2 m0) (dec_of_Z fw) = Some u ->
  dec_div (dec_sub m3 m1) (dec_of_Z fh) = Some u' ->
  dec_eqb u u' = true ->
  bleed_document [page] fw fh l b r t =
  Ok [set_bleedbox page
        [ dec_add m0 (dec_mul (dec_of_Z l) u);
          dec_add m1 (dec_mul (dec_of_Z t) u);
          dec_sub m2 (dec_mul (dec_of_Z r) u);
          dec_sub m3 (dec_mul (dec_of_Z b) u) ]].
Proof.
  intros H0 H1 H2 H3 Hu Hu' Heq.
  unfold bleed_document. cbn [length Nat.eqb assert bind].
  change (index [page] 0) with (Ok page). cbn [bind].
  rewrite (index_some _ _ _ H2), (index_some _ _ _ H0),
    (index_some _ _ _ H3), (index_some _ _ _ H1).
  cbn [bind]. unfold divide. rewrite Hu, Hu'. cbn [bind]. rewrite Heq. reflexivity.
Qed.

(** Whatever the outcome, only the output path can differ afterwards,
    and it differs only after a success. *)
Lemma add_bleed_box_effect (save_pdf : renderer D) (fs : gmap string (list (Page D)))
    (im : Image) (res : Z) (path : string) (fw fh l b r t : Z) :
  (exists e, add_bleed_box save_pdf fs im res path fw fh l b r t = (fs, Raise e)) \/
  (exists page bleed,
     save_pdf im res = Ok [page] /\ length bleed = 4%nat /\
     add_bleed_box save_pdf fs im res path fw fh l b r t
     = (<[path := [mkPage (MediaBox page) (Some bleed)]]> fs, Ok tt)).
Proof.
  unfold add_bleed_box.
  destruct (save_pdf im res) as [pdf|e] eqn:Esave; cbn [bind]; [|left; now exists e].
  destruct (bleed_document pdf fw fh l b r t) as [out|e] eqn:Edoc; [|left; now exists e].
  right. apply bleed_document_ok in Edoc
    as (page & m0 & m1 & m2 & m3 & u & -> & _ & _ & _ & _ & _ & ->).
  eexists page, _. split; [reflexivity|]. split; [|reflexivity]. reflexivity.
Qed.
End BleedBoxMore.



(** X11: [add_bleed_box] writes at most one file.  Every path other
    than the output path holds afterwards what it held before; after any
    failure, the renderer's included, the whole file system is as before;
    after a success the output path holds one page, the rendered one with
    a bleed box of four numbers, whatever was there before. *)
Theorem add_bleed_box_frame {D : Type} `{Decimal D} (save_pdf : renderer D)
    (fs : gmap string (list (Page D))) (input_image : Image) (dpi : Z)
    (output_pdf_path : string) (full_width_px full_height_px : Z)
    (left_offset_px bottom_offset_px right_offset_px top_offset_px : Z) :
  (forall p, p <> output_pdf_path ->
     fst (add_bleed_box save_pdf fs input_image dpi output_pdf_path
            full_width_px full_height_px
            left_offset_px bottom_offset_px right_offset_px top_offset_px) !! p
     = fs !! p) /\
  (forall e,
     snd (add_bleed_box save_pdf fs input_image dpi output_pdf_path
            full_width_px full_height_px
            left_offset_px bottom_offset_px right_offset_px top_offset_px) = Raise e ->
     fst (add_bleed_box save_pdf fs input_image dpi output_pdf_path
            full_width_px full_height_px
            left_offset_px bottom_offset_px right_offset_px top_offset_px) = fs) /\
  (snd (add_bleed_box save_pdf fs input_image dpi output_pdf_path
          full_width_px full_height_px
          left_offset_px bottom_offset_px right_offset_px top_offset_px) = Ok tt ->
   exists page bleed,
     save_pdf input_image dpi = Ok [page] /\ length bleed = 4%nat /\
     fst (add_bleed_box save_pdf fs input_image dpi output_pdf_path
            full_width_px full_height_px
            left_offset_px bottom_offset_px right_offset_px top_offset_px)
       !! output_pdf_path
     = Some [mkPage (MediaBox page) (Some bleed)]).
Proof.
  destruct (add_bleed_box_effect save_pdf fs input_image dpi output_pdf_path
              full_width_px full_height_px
              left_offset_px bottom_offset_px right_offset_px top_offset_px)
    as [[e ->] | (page & bleed & Hsave & Hlen & ->)]; cbn [fst snd].
  - split; [reflexivity|]. split; [reflexivity|]. discriminate.
  - split; [|split].
    + intros p Hp. now rewrite lookup_insert_ne.
    + discriminate.
    + intros _. exists page, bleed. split; [assumption|]. split; [assumption|].
      now rewrite lookup_insert_eq.
Qed.

(** ** The bleed box in exact arithmetic *)









(** ** [main]: the image work *)

Lemma pixel_sizes :
  target_cover_width_px = 1650 /\ target_height_px = 2550 /\
  target_spine_width_px = 195 /\ bleed_size_px = 37.
Proof. now repeat split. Qed.


(** The three panels [main] hands to [add_bleed_box]. *)
Lemma panels_with_bleed_ok (resample : resampler) (img : Image) :
  1630 + 1625 < width img -> 1 <= height img ->
  exists back spine front,
    panels_with_bleed resample img = Ok (back, spine, front) /\
    (mode back = RGB /\ width back = 1687 /\ height back = 2624) /\
    (mode spine = RGB /\ width spine = 195 /\ height spine = 2624) /\
    (mode front = RGB /\ width front = 1687 /\ height front = 2624).
Proof.
  intros Hw Hh. unfold panels_with_bleed.
  rewrite split_book_cover_ok by (unfold wf; lia). cbn [bind fst snd].
  destruct pixel_sizes as (-> & -> & -> & ->).
  match goal with |- context [bind (resize resample ?im 1650 2550) _] =>
    destruct (resize_ok resample im 1650 2550) as (fr & -> & _ & Hfw & Hfh); [lia|lia|] end.
  cbn [bind].
  match goal with |- context [bind (resize resample ?im 1650 2550) _] =>
    destruct (resize_ok resample im 1650 2550) as (ba & -> & _ & Hbw & Hbh); [lia|lia|] end.
  cbn [bind].
  match goal with |- context [bind (resize resample ?im 195 2550) _] =>
    destruct (resize_ok resample im 195 2550) as (sp & -> & _ & Hsw & Hsh); [lia|lia|] end.
  cbn [bind].
  destruct (concatenate_same_height [ba; sp; fr])
    as (all & -> & Ham & Haw & Hah & _).
  { discriminate. }
  { repeat constructor; lia. }
  { intros (a & b & Ha & Hb & Hne). apply Hne. simpl in Ha, Hb.
    destruct Ha as [<-|[<-|[<-|[]]]], Hb as [<-|[<-|[<-|[]]]]; lia. }
  cbn [bind].
  assert (Haw' : width all = 3495).
  { rewrite Haw, !sum_widths_cons. unfold sum_widths. simpl. lia. }
  assert (Hah' : height all = 2550).
  { rewrite (Hah ba) by now left. assumption. }
  destruct (add_stretched_border_layout resample all 37 10)
    as (_ & _ & _ & _ & _ & _ & _ & _ & st & _ & _ & _ & _ & _ & _ & _ & _ &
        -> & Hstm & Hstw & Hsth & _); try lia.
  cbn [bind].
  rewrite split_book_cover_ok by (unfold wf; lia).
  do 3 eexists. split; [reflexivity|]. cbn [mode width height].
  repeat split; try assumption; lia.
Qed.



(** X14: on every image wider than 3255 pixels and at least one pixel
    high, of any mode, the image work of [main] succeeds, and each panel
    it produces is an RGB image of exactly the pixel size [main] passes
    to [add_bleed_box] for it: 1687 x 2624 for back and front panel,
    195 x 2624 for the spine. *)
Theorem panels_match_calls (resample : resampler) (img : Image) :
  3255 < width img -> 1 <= height img ->
  exists back spine front,
    panels_with_bleed resample img = Ok (back, spine, front) /\
    mode back = RGB /\ mode spine = RGB /\ mode front = RGB /\
    width back = call_full_width_px back_call /\
    height back = call_full_height_px back_call /\
    width spine = call_full_width_px spine_call /\
    height spine = call_full_height_px spine_call /\
    width front = call_full_width_px front_call /\
    height front = call_full_height_px front_call /\
    call_full_width_px back_call = 1687 /\ call_full_width_px spine_call = 195 /\
    call_full_height_px back_call = 2624.
Proof.
  intros Hw Hh.
  destruct (panels_with_bleed_ok resample img) as
    (back & spine & front & Hok & (Hbm & Hbw & Hbh) & (Hsm & Hsw & Hsh) & (Hfm & Hfw & Hfh));
    [lia|lia|].
  exists back, spine, front. split; [assumption|].
  repeat split; assumption.
Qed.

Lemma panels_match_calls_witness :
  exists back spine front,
    panels_with_bleed nearest red_scan = Ok (back, spine, front) /\
    mode back = RGB /\ mode spine = RGB /\ mode front = RGB /\
    width back = call_full_width_px back_call /\
    height back = call_full_height_px back_call /\
    width spine = call_full_width_px spine_call /\
    height spine = call_full_height_px spine_call /\
    width front = call_full_width_px front_call /\
    height front = call_full_height_px front_call /\
    call_full_width_px back_call = 1687 /\ call_full_width_px spine_call = 195 /\
    call_full_height_px back_call = 2624.
Proof.
  apply (panels_match_calls nearest red_scan); simpl; lia.
Defined.

(** ** [main]: the files of a run *)

Section MainRuns.
Context {D : Type} `{Decimal D}.
Variable resample : resampler.
Variable save_pdf : renderer D.

Lemma traced_add_bleed_box_effect (im : Image) (c : bleed_call)
    (fs : gmap string (list (Page D))) (trace : list bleed_call) :
  (exists e, traced_add_bleed_box save_pdf im c (fs, trace)
             = ((fs, trace ++ [c]), Raise e)) \/
  (exists doc, saved_document doc /\
               traced_add_bleed_box save_pdf im c (fs, trace)
               = ((<[call_path c := doc]> fs, trace ++ [c]), Ok tt)).
Proof.
  unfold traced_add_bleed_box. cbn [fst snd].
  destruct (add_bleed_box_effect save_pdf fs im dpi (call_path c)
              (call_full_width_px c) (call_full_height_px c)
              (call_left_offset_px c) (call_bottom_offset_px c)
              (call_right_offset_px c) (call_top_offset_px c))
    as [[e ->] | (page & bleed & _ & Hlen & ->)].
  - left. now exists e.
  - right. eexists. split; [|reflexivity]. now exists page, bleed.
Qed.

(** The five ways a run can go. *)
Lemma main_outcomes (img : Image) (fs : gmap string (list (Page D))) :
  (exists e, main resample save_pdf img (fs, []) = ((fs, []), Raise e)) \/
  (exists e, main resample save_pdf img (fs, []) = ((fs, [back_call]), Raise e)) \/
  (exists e d1, saved_document d1 /\
     main resample save_pdf img (fs, [])
     = ((<["back.pdf" := d1]> fs, [back_call; spine_call]), Raise e)) \/
  (exists e d1 d2, saved_document d1 /\ saved_document d2 /\
     main resample save_pdf img (fs, [])
     = ((<["spine.pdf" := d2]> (<["back.pdf" := d1]> fs),
         [back_call; spine_call; front_call]), Raise e)) \/
  (exists d1 d2 d3, saved_document d1 /\ saved_document d2 /\ saved_document d3 /\
     main resample save_pdf img (fs, [])
     = ((<["front.pdf" := d3]> (<["spine.pdf" := d2]> (<["back.pdf" := d1]> fs)),
         [back_call; spine_call; front_call]), Ok tt)).
Proof.
  unfold main.
  destruct (panels_with_bleed resample img) as [[[back spine] front]|e];
    [|left; now exists e].
  right. unfold and_then.
  destruct (traced_add_bleed_box_effect back back_call fs [])
    as [[e ->] | (d1 & Hd1 & ->)]; [left; now exists e|].
  right.
  destruct (traced_add_bleed_box_effect spine spine_call
              (<[call_path back_call := d1]> fs) ([] ++ [back_call]))
    as [[e ->] | (d2 & Hd2 & ->)]; [left; now exists e, d1|].
  right.
  destruct (traced_add_bleed_box_effect front front_call
              (<[call_path spine_call := d2]> (<[call_path back_call := d1]> fs))
              (([] ++ [back_call]) ++ [spine_call]))
    as [[e ->] | (d3 & Hd3 & ->)]; [left; now exists e, d1, d2|].
  right. now exists d1, d2, d3.
Qed.
End MainRuns.

(** X15: a run of [main] touches no path but back.pdf, spine.pdf and
    front.pdf, and it deletes nothing: every other path holds afterwards
    what it held before, and a path that held a file still holds one. *)
Theorem main_frame {D : Type} `{Decimal D}
    (resample : resampler) (save_pdf : renderer D)
    (img : Image) (fs : gmap string (list (Page D))) :
  (forall p, p <> "back.pdf" -> p <> "spine.pdf" -> p <> "front.pdf" ->
     fst (fst (main resample save_pdf img (fs, []))) !! p = fs !! p) /\
  (forall p, is_Some (fs !! p) ->
     is_Some (fst (fst (main resample save_pdf img (fs, []))) !! p)).
Proof.
  destruct (main_outcomes resample save_pdf img fs)
    as [[e ->] | [[e ->] | [(e & d1 & _ & ->) | [(e & d1 & d2 & _ & _ & ->)
        | (d1 & d2 & d3 & _ & _ & _ & ->)]]]]; cbn [fst snd]; split;
    try (intros p Hb Hs Hf; now rewrite ?lookup_insert_ne by congruence);
    intros p Hp; rewrite ?lookup_insert_is_Some'; tauto.
Qed.

(** X16: [main] cleans nothing up.  When a run fails, the files of the
    calls that succeeded before are on disk, each a saved document, and the
    paths of the failing and of the later calls are untouched: after a
    failure in the image work or in the first call nothing has changed,
    after a failure in the second call back.pdf is written, after a failure
    in the third back.pdf and spine.pdf are. *)
Theorem main_partial_outputs {D : Type} `{Decimal D}
    (resample : resampler) (save_pdf : renderer D)
    (img : Image) (fs : gmap string (list (Page D))) (e : exn) :
  snd (main resample save_pdf img (fs, [])) = Raise e ->
  (length (snd (fst (main resample save_pdf img (fs, [])))) <= 1)%nat /\
    fst (fst (main resample save_pdf img (fs, []))) = fs \/
  snd (fst (main resample save_pdf img (fs, []))) = [back_call; spine_call] /\
    (exists d1, saved_document d1 /\
       fst (fst (main resample save_pdf img (fs, []))) = <["back.pdf" := d1]> fs) \/
  snd (fst (main resample save_pdf img (fs, []))) = [back_call; spine_call; front_call] /\
    (exists d1 d2, saved_document d1 /\ saved_document d2 /\
       fst (fst (main resample save_pdf img (fs, [])))
       = <["spine.pdf" := d2]> (<["back.pdf" := d1]> fs)).
Proof.
  intros Hfail.
  destruct (main_outcomes resample save_pdf img fs)
    as [[e' Hrun] | [[e' Hrun] | [(e' & d1 & Hd1 & Hrun) | [(e' & d1 & d2 & Hd1 & Hd2 & Hrun)
        | (d1 & d2 & d3 & _ & _ & _ & Hrun)]]]]; rewrite Hrun in *; cbn [fst snd] in *.
  - left. split; [simpl; lia|reflexivity].
  - left. split; [simpl; lia|reflexivity].
  - right; left. split; [reflexivity|]. now exists d1.
  - right; right. split; [reflexivity|]. now exists d1, d2.
  - discriminate.
Qed.

(** A renderer whose page fits the back panel only: the run stops at the
    spine, and back.pdf stays. *)
Lemma main_partial_outputs_witness :
  snd (fst (main nearest (one_page [0; 0; 1687; 2624]%Q) red_scan (∅, [])))
    = [back_call; spine_call] /\
  exists d1, saved_document d1 /\
    fst (fst (main nearest (one_page [0; 0; 1687; 2624]%Q) red_scan (∅, [])))
    = <["back.pdf" := d1]> ∅.
Proof.
  destruct (main_partial_outputs nearest (one_page [0; 0; 1687; 2624]%Q) red_scan ∅
              AssertionError) as [[Hlen _] | [Htwo | [Hthree _]]].
  - vm_compute. reflexivity.
  - exfalso. vm_compute in Hlen. lia.
  - exact Htwo.
  - exfalso. vm_compute in Hthree. discriminate.
Defined.

(** ** [main]: a complete run *)

Lemma Q_scale_of_uniform (k m : Q) (n : Z) :
  (m == k * inject_Z n)%Q -> 1 <= n ->
  (Qred (Qred (m - 0) / inject_Z n) == k)%Q.
Proof.
  intros Hm Hn. rewrite !Qred_correct, Hm. field.
  intros Hz. unfold Qeq in Hz. simpl in Hz. lia.
Qed.

Lemma inject_Z_nonzero (n : Z) : 1 <= n -> Qeq_bool (inject_Z n) 0 = false.
Proof.
  intros Hn. destruct (Qeq_bool (inject_Z n) 0) eqn:E; [|reflexivity].
  apply Qeq_bool_eq in E. unfold Qeq in E. simpl in E. lia.
Qed.

(** One call on a panel of the announced size, under a uniform renderer. *)
Lemma traced_add_bleed_box_uniform (save_pdf : renderer Q) (k : Q)
    (im : Image) (c : bleed_call)
    (fs : gmap string (list (Page Q))) (trace : list bleed_call) :
  uniform_renderer save_pdf k ->
  1 <= width im -> 1 <= height im ->
  call_full_width_px c = width im -> call_full_height_px c = height im ->
  exists doc, saved_document doc /\
    traced_add_bleed_box save_pdf im c (fs, trace)
    = ((<[call_path c := doc]> fs, trace ++ [c]), Ok tt).
Proof.
  intros Huni Hw Hh Hcw Hch.
  destruct (Huni im Hw Hh) as (mw & mh & Hsave & Hmw & Hmh).
  unfold traced_add_bleed_box, add_bleed_box. cbn [fst snd]. rewrite Hsave. cbn [bind].
  rewrite (bleed_document_good (mkPage [0%Q; 0%Q; mw; mh] None) 0%Q 0%Q mw mh
             (Qred (Qred (mw - 0) / inject_Z (call_full_width_px c)))
             (Qred (Qred (mh - 0) / inject_Z (call_full_height_px c))));
    try reflexivity.
  - eexists. split; [|reflexivity]. do 2 eexists. split; reflexivity.
  - cbn [dec_div dec_sub dec_of_Z Q_Decimal].
    now rewrite inject_Z_nonzero by lia.
  - cbn [dec_div dec_sub dec_of_Z Q_Decimal].
    now rewrite inject_Z_nonzero by lia.
  - cbn [dec_eqb Q_Decimal]. apply Qeq_bool_iff.
    rewrite (Q_scale_of_uniform k mw) by (rewrite ?Hcw; auto; lia).
    rewrite (Q_scale_of_uniform k mh) by (rewrite ?Hch; auto; lia).
    reflexivity.
Qed.

(** X17: a complete run.  With exact rational arithmetic for the page
    numbers and a PDF writer that scales both axes by one factor, [main]
    succeeds on every image wider than 3255 pixels and at least one pixel
    high: it makes the three calls and leaves a saved document at each of
    back.pdf, spine.pdf and front.pdf. *)
Theorem main_succeeds (resample : resampler) (save_pdf : renderer Q) (k : Q)
    (img : Image) (fs : gmap string (list (Page Q))) :
  uniform_renderer save_pdf k ->
  3255 < width img -> 1 <= height img ->
  snd (main resample save_pdf img (fs, [])) = Ok tt /\
  snd (fst (main resample save_pdf img (fs, []))) = [back_call; spine_call; front_call] /\
  exists d1 d2 d3,
    saved_document d1 /\ saved_document d2 /\ saved_document d3 /\
    fst (fst (main resample save_pdf img (fs, []))) !! "back.pdf" = Some d1 /\
    fst (fst (main resample save_pdf img (fs, []))) !! "spine.pdf" = Some d2 /\
    fst (fst (main resample save_pdf img (fs, []))) !! "front.pdf" = Some d3.
Proof.
  intros Huni Hw Hh. unfold main.
  destruct (panels_with_bleed_ok resample img) as
    (back & spine & front & -> & (_ & Hbw & Hbh) & (_ & Hsw & Hsh) & (_ & Hfw & Hfh));
    [lia|lia|].
  unfold and_then.
  destruct (traced_add_bleed_box_uniform save_pdf k back back_call fs [] Huni)
    as (d1 & Hd1 & ->); try lia; try (now rewrite ?Hbw, ?Hbh).
  destruct (traced_add_bleed_box_uniform save_pdf k spine spine_call
              (<[call_path back_call := d1]> fs) ([] ++ [back_call]) Huni)
    as (d2 & Hd2 & ->); try lia; try (now rewrite ?Hsw, ?Hsh).
  destruct (traced_add_bleed_box_uniform save_pdf k front front_call
              (<[call_path spine_call := d2]> (<[call_path back_call := d1]> fs))
              (([] ++ [back_call]) ++ [spine_call]) Huni)
    as (d3 & Hd3 & ->); try lia; try (now rewrite ?Hfw, ?Hfh).
  cbn [fst snd]. split; [reflexivity|]. split; [reflexivity|].
  exists d1, d2, d3. repeat (split; [assumption|]).
  cbn [call_path back_call spine_call front_call].
  split; [|split].
  - rewrite lookup_insert_ne by discriminate. rewrite lookup_insert_ne by discriminate.
    now rewrite lookup_insert_eq.
  - rewrite lookup_insert_ne by discriminate. now rewrite lookup_insert_eq.
  - now rewrite lookup_insert_eq.
Qed.

Lemma save_pdf_72_uniform : uniform_renderer save_pdf_72 (72 / 300).
Proof.
  intros im Hw Hh. unfold save_pdf_72, dpi. do 2 eexists. split; [reflexivity|].
  split; rewrite Qred_correct; field.
Qed.

Lemma main_succeeds_witness :
  snd (main nearest save_pdf_72 red_scan (∅, [])) = Ok tt /\
  snd (fst (main nearest save_pdf_72 red_scan (∅, []))) = [back_call; spine_call; front_call] /\
  exists d1 d2 d3,
    saved_document d1 /\ saved_document d2 /\ saved_document d3 /\
    fst (fst (main nearest save_pdf_72 red_scan (∅, []))) !! "back.pdf" = Some d1 /\
    fst (fst (main nearest save_pdf_72 red_scan (∅, []))) !! "spine.pdf" = Some d2 /\
    fst (fst (main nearest save_pdf_72 red_scan (∅, []))) !! "front.pdf" = Some d3.
Proof.
  apply (main_succeeds nearest save_pdf_72 (72 / 300) red_scan ∅).
  - exact save_pdf_72_uniform.
  - simpl. lia.
  - simpl. lia.
Defined.
